(** * convert_minilm_to_coreml.py: the conversion script, embedded and verified

    The script loads a sentence-embedding transformer, wraps it with mean
    pooling and L2 normalisation, traces the wrapper and converts the traced
    graph into a Core ML package.

    - [Tensor]   : the tensor arithmetic of [PoolingWrapper.forward].
      Tensors are nested lists; the float arithmetic of torch is read over
      the real numbers.
    - [Path]     : the normalisation of the output name.
    - [Pipeline] : [convert] and the entry point of the script, as programs
      of a small state / exception / log monad over the third-party
      libraries (transformers, torch.jit, coremltools, os.path).
    - [Demo]     : concrete models and libraries, for the examples.
    - [More]     : the int32 range, what a run prints, the data flow of a
      successful run, what tracing and conversion preserve.
    - [TensorFacts], [PathFacts], [PipelineFacts], [TensorMore],
      [CastFacts], [PathMore], [PipelineMore], [ArtifactFacts] : what is
      proved. *)

From Stdlib Require Import String Ascii ZArith Bool Lia Reals Lra List.
From Stdlib Require Import Permutation.
Import ListNotations.

(* ------------------------------------------------------------------ *)
(** ** Tensors and [PoolingWrapper.forward] *)
(* ------------------------------------------------------------------ *)

Module Tensor.

Local Open Scope R_scope.

(** A vector along the hidden dimension. *)
Definition vec := list R.

(** An integer tensor of shape (batch, seq): [input_ids], [attention_mask]. *)
Definition itensor := list (list Z).

(** The base transformer.  [last_hidden_state ids mask] is the
    (batch, seq, hidden) tensor [outputs.last_hidden_state]. *)
Record Model := {
  hidden_size : nat;
  last_hidden_state : itensor -> itensor -> list (list vec)
}.

(** A (batch, seq, hidden) tensor that has one vector of [H] numbers for
    every position of the (batch, seq) tensor [t]. *)
Definition shaped_like (hidden : list (list vec)) (t : itensor) (H : nat) : Prop :=
  Forall2 (fun hs (row : list Z) =>
             length hs = length row /\
             Forall (fun v : vec => length v = H) hs)
          hidden t.

(** What torch guarantees about the shape of [last_hidden_state]: it
    follows the shape of [input_ids]. *)
Definition well_shaped (m : Model) : Prop :=
  forall ids mask, shaped_like (last_hidden_state m ids mask) ids (hidden_size m).

Definition map2 {A B C} (f : A -> B -> C) (l : list A) (l' : list B) : list C :=
  map (fun p => f (fst p) (snd p)) (combine l l').

Definition rsum (l : list R) : R := fold_right Rplus 0 l.

Definition vadd (u v : vec) : vec := map2 Rplus u v.

(** [h * m] for one position: the mask value is broadcast over the hidden
    dimension. *)
Definition vscale (h : vec) (m : R) : vec := map (fun x => x * m) h.

(** [.sum(dim=1)] of one batch entry of a (batch, seq, hidden) tensor. *)
Definition sum_seq (H : nat) (rows : list vec) : vec :=
  fold_right vadd (repeat 0 H) rows.

(** [.clamp(min=c)]. *)
Definition clamp_min (c x : R) : R := Rmax x c.

(** The p=2 norm along the hidden dimension. *)
Definition norm2 (v : vec) : R := sqrt (rsum (map (fun x => x * x) v)).

(** [torch.nn.functional.normalize(v, p=2, dim=1)], whose [eps] defaults to
    1e-12: [v / max(norm2 v, eps)]. *)
Definition normalize_eps : R := 1e-12.

Definition normalize (v : vec) : vec :=
  map (fun x => x / Rmax (norm2 v) normalize_eps) v.

Record PoolingWrapper := { base : Model }.

(** [attention_mask.unsqueeze(-1).to(dtype=last_hidden.dtype)]: the trailing
    dimension of size 1 is left implicit, and the cast is exact (in float32
    it is for mask values up to 2^24 in size). *)
Definition float_mask (attention_mask : itensor) : list (list R) :=
  map (map IZR) attention_mask.

(** [last_hidden * mask]. *)
Definition mul_mask (last_hidden : list (list vec)) (mask : list (list R))
  : list (list vec) :=
  map2 (map2 vscale) last_hidden mask.

(** [mask.sum(dim=1).clamp(min=1e-9)]. *)
Definition denominators (mask : list (list R)) : list R :=
  map (fun ms => clamp_min 1e-9 (rsum ms)) mask.

(** [summed / denom], the divisor broadcast over the hidden dimension. *)
Definition div_rows (summed : list vec) (denom : list R) : list vec :=
  map2 (fun s d => map (fun x => x / d) s) summed denom.

(** One batch entry of lines 42-44: the masked sum over its clamped
    divisor. *)
Definition pooled_row (H : nat) (hs : list vec) (ms : list Z) : vec :=
  map (fun x => x / clamp_min 1e-9 (rsum (map IZR ms)))
      (sum_seq H (map2 vscale hs (map IZR ms))).

(** Lines 39-44 of the script: everything before the normalisation. *)
Definition pooled (w : PoolingWrapper) (input_ids attention_mask : itensor)
  : list vec :=
  let last_hidden := last_hidden_state (base w) input_ids attention_mask in
  let mask := float_mask attention_mask in
  let summed := map (sum_seq (hidden_size (base w))) (mul_mask last_hidden mask) in
  let denom := denominators mask in
  div_rows summed denom.

Definition forward (w : PoolingWrapper) (input_ids attention_mask : itensor)
  : list vec :=
  let last_hidden := last_hidden_state (base w) input_ids attention_mask in
  let mask := float_mask attention_mask in
  let summed := map (sum_seq (hidden_size (base w))) (mul_mask last_hidden mask) in
  let denom := denominators mask in
  let pooled := div_rows summed denom in
  let normalized := map normalize pooled in
  normalized.

(** The shape of a (batch, hidden) tensor whose rows all have the length of
    the first one. *)
Definition shape2 {A} (t : list (list A)) : list nat :=
  [length t; length (hd [] t)].

(** *** The reference definition of mean pooling

    Sum of the hidden states at the unmasked positions, divided by the
    number of unmasked positions. *)

Definition unmasked (hs : list vec) (ms : list Z) : list vec :=
  map fst (filter (fun p => negb (Z.eqb (snd p) 0)) (combine hs ms)).

Definition reference_mean_pool (H : nat) (hs : list vec) (ms : list Z) : vec :=
  map (fun x => x / INR (length (unmasked hs ms))) (sum_seq H (unmasked hs ms)).

Definition reference_pooled (w : PoolingWrapper) (input_ids attention_mask : itensor)
  : list vec :=
  map2 (reference_mean_pool (hidden_size (base w)))
       (last_hidden_state (base w) input_ids attention_mask) attention_mask.

Definition reference_forward (w : PoolingWrapper) (input_ids attention_mask : itensor)
  : list vec :=
  map normalize (reference_pooled w input_ids attention_mask).

(** The masked mean written out for one batch entry: every hidden vector
    times its mask value, summed, divided by the sum of the mask values. *)
Definition masked_mean (H : nat) (hs : list vec) (ms : list Z) : vec :=
  map (fun x => x / rsum (map IZR ms)) (sum_seq H (map2 vscale hs (map IZR ms))).

(** A mask as the tokenizer produces it: entries 0 or 1, at least one 1 in
    every row. *)
Definition binary_mask (mask : itensor) : Prop :=
  Forall (fun row => Forall (fun m => m = 0%Z \/ m = 1%Z) row /\ In 1%Z row) mask.

End Tensor.

(* ------------------------------------------------------------------ *)
(** ** The name of the output package *)
(* ------------------------------------------------------------------ *)

Module Path.

Local Open Scope string_scope.

(** [s.endswith(suffix)]. *)
Definition endswith (s suffix : string) : bool :=
  let n := String.length s in
  let m := String.length suffix in
  if (m <=? n)%nat then String.eqb (substring (n - m) m s) suffix else false.

(** Lines 95-96 of the script: the new value of [output_package]. *)
Definition package_name (output_package : string) : string :=
  if negb (endswith output_package ".mlpackage") then
    output_package ++
      (if endswith output_package ".mlpackage" then "" else ".mlpackage")
  else output_package.

End Path.

(* ------------------------------------------------------------------ *)
(** ** The conversion pipeline *)
(* ------------------------------------------------------------------ *)

Module Pipeline.

Import Tensor Path.
Local Open Scope string_scope.

(** An instance of Python's [Exception], which is what the libraries raise
    when they fail, with what [str(e)] gives. *)
Record exn := { exn_class : string; exn_str : string }.

Inductive result (A : Type) : Type :=
| Ok (a : A)
| Raise (e : exn).
Arguments Ok {A} a.
Arguments Raise {A} e.

Inductive dtype := int32 | int64 | float32.

(** [ct.TensorType(name=..., shape=..., dtype=...)]. *)
Record TensorType := {
  tt_name : string;
  tt_shape : list nat;
  tt_dtype : dtype
}.

(** What the tokenizer returns: the two tensors the script reads.  Both
    are taken to be there: a tokenizer that returns no attention mask, for
    which [encoded["attention_mask"]] raises, is no part of the model. *)
Record Encoding := {
  enc_input_ids : itensor;
  enc_attention_mask : itensor
}.

(** [.to(dtype=torch.int32)] on an integer tensor: values wrap to 32 bits. *)
Definition wrap32 (z : Z) : Z := ((z + 2 ^ 31) mod 2 ^ 32 - 2 ^ 31)%Z.

Definition to_int32 (t : itensor) : itensor := map (map wrap32) t.

(** The calls the script makes into its libraries. *)
Inductive call :=
| AutoTokenizer_from_pretrained (model_name : string)
| AutoModel_from_pretrained (model_name : string)
| model_eval
| PoolingWrapper_init
| tokenizer_call (text : string) (max_length : Z)
| jit_trace (wrapper : PoolingWrapper) (input_ids attention_mask : itensor)
| jit_script (wrapper : PoolingWrapper)
| traced_eval
| ct_convert (inputs : list TensorType)
| set_short_description (s : string)
| set_author (s : string)
| set_license (s : string)
| mlmodel_save (path : string)
| os_path_abspath (path : string).

Inductive outcome := Returned | Raised (e : exn).

(** What a run of the script does, in order. *)
Inductive event :=
| Print (s : string)
| Called (c : call) (o : outcome)
| Traceback (e : exn).

Definition outcome_of {A} (r : result A) : outcome :=
  match r with Ok _ => Returned | Raise e => Raised e end.

Section Script.

(** The world the libraries act on (model hub and cache, file system,
    working directory) and the values they hand out. *)
Variables W Tokenizer Traced Program : Type.

(** The converted model with the metadata the script sets on it. *)
Record MLModel := {
  program : Program;
  short_description : string;
  author : string;
  license : string
}.

(** The third-party functions that can fail.  [model.eval()],
    [traced.eval()], the constructor of the wrapper and the metadata
    setters only write fields of an object: they always return. *)
Record Libs := {
  tokenizer_from_pretrained : string -> W -> W * result Tokenizer;
  model_from_pretrained : string -> W -> W * result Model;
  (* tokenizer(text, return_tensors="pt", max_length=n, truncation=True,
     padding="max_length") *)
  tokenize : Tokenizer -> string -> Z -> W -> W * result Encoding;
  torch_jit_trace : PoolingWrapper -> itensor -> itensor -> W -> W * result Traced;
  torch_jit_script : PoolingWrapper -> W -> W * result Traced;
  coremltools_convert : Traced -> list TensorType -> W -> W * result MLModel;
  save : MLModel -> string -> W -> W * result unit;
  abspath : string -> W -> string
}.

Variable L : Libs.

(** *** The monad of the script: world, exceptions, log *)

Record Run (A : Type) := {
  log : list event;
  world : W;
  value : result A
}.
Arguments log {A} r.
Arguments world {A} r.
Arguments value {A} r.

Definition M (A : Type) : Type := W -> Run A.

Definition ret {A} (a : A) : M A :=
  fun w => {| log := []; world := w; value := Ok a |}.

Definition raise {A} (e : exn) : M A :=
  fun w => {| log := []; world := w; value := Raise e |}.

(** [r], with [l] logged before it. *)
Definition after {A} (l : list event) (r : Run A) : Run A :=
  match r with
  | {| log := l'; world := w; value := v |} =>
      {| log := l ++ l'; world := w; value := v |}
  end.

Definition bind {A B} (m : M A) (f : A -> M B) : M B :=
  fun w =>
    match m w with
    | {| log := l; world := w1; value := Ok a |} => after l (f a w1)
    | {| log := l; world := w1; value := Raise e |} =>
        {| log := l; world := w1; value := Raise e |}
    end.

(** [try: m  except Exception as e: h e]. *)
Definition try_except {A} (m : M A) (h : exn -> M A) : M A :=
  fun w =>
    match m w with
    | {| log := l; world := w1; value := Ok a |} =>
        {| log := l; world := w1; value := Ok a |}
    | {| log := l; world := w1; value := Raise e |} => after l (h e w1)
    end.

Definition emit (ev : event) : M unit :=
  fun w => {| log := [ev]; world := w; value := Ok tt |}.

(** [print(s)], taken as always returning: a standard output that cannot
    be written to (closed, or unable to encode a character) is no part of
    the model. *)
Definition print (s : string) : M unit := emit (Print s).

(** A library call that can raise. *)
Definition invoke {A} (c : call) (op : W -> W * result A) : M A :=
  fun w =>
    match op w with
    | (w1, r) => {| log := [Called c (outcome_of r)]; world := w1; value := r |}
    end.

(** A call that always returns. *)
Definition always {A} (c : call) (a : A) : M A :=
  fun w => {| log := [Called c Returned]; world := w; value := Ok a |}.

(** A call that reads the world and always returns. *)
Definition ask {A} (c : call) (f : W -> A) : M A :=
  fun w => {| log := [Called c Returned]; world := w; value := Ok (f w) |}.

Notation "x <- m ;; k" := (bind m (fun x => k))
  (at level 61, m at next level, right associativity).
Notation "m ;; k" := (bind m (fun _ => k))
  (at level 61, right associativity).

(** *** [convert] *)

Definition dummy_text : string :=
  "This is a sample input for tracing the model.".

Definition description : string :=
  "All-MiniLM-L6-v2 embeddings (384-dim) — accepts token IDs and attention mask.".

Definition converted_from : string :=
  "Converted from sentence-transformers/all-MiniLM-L6-v2".

Definition license_note : string :=
  "Original model license: see Hugging Face model page".

(** The three assignments of lines 90-92. *)
Definition with_short_description (s : string) (m : MLModel) : MLModel :=
  {| program := program m; short_description := s;
     author := author m; license := license m |}.

Definition with_author (s : string) (m : MLModel) : MLModel :=
  {| program := program m; short_description := short_description m;
     author := s; license := license m |}.

Definition with_license (s : string) (m : MLModel) : MLModel :=
  {| program := program m; short_description := short_description m;
     author := author m; license := s |}.

(** Lines 79-82: the two declared inputs of the Core ML model. *)
Definition declared_inputs (input_ids attention_mask : itensor) : list TensorType :=
  [ {| tt_name := "input_ids"; tt_shape := shape2 input_ids; tt_dtype := int32 |};
    {| tt_name := "attention_mask"; tt_shape := shape2 attention_mask;
       tt_dtype := int32 |} ].

(** Lines 64-72: trace the wrapper, script it when tracing raises.
    [torch.no_grad()] only switches gradient recording off. *)
Definition trace_or_script (wrapper : PoolingWrapper)
  (input_ids attention_mask : itensor) : M Traced :=
  try_except
    (traced <- invoke (jit_trace wrapper input_ids attention_mask)
                      (torch_jit_trace L wrapper input_ids attention_mask) ;;
     always traced_eval tt ;;
     ret traced)
    (fun e =>
       print ("Tracing failed with error: " ++ exn_str e) ;;
       print "Trying torch.jit.script fallback..." ;;
       traced <- invoke (jit_script wrapper) (torch_jit_script L wrapper) ;;
       always traced_eval tt ;;
       ret traced).

Definition convert (model_name : string) (seq_len : Z) (output_package : string)
  : M string :=
  print ("[1/6] Loading tokenizer and model: " ++ model_name) ;;
  tokenizer <- invoke (AutoTokenizer_from_pretrained model_name)
                      (tokenizer_from_pretrained L model_name) ;;
  model <- invoke (AutoModel_from_pretrained model_name)
                  (model_from_pretrained L model_name) ;;
  always model_eval tt ;;
  wrapper <- always PoolingWrapper_init {| base := model |} ;;
  print "[2/6] Preparing dummy inputs for TorchScript trace" ;;
  encoded <- invoke (tokenizer_call dummy_text seq_len)
                    (tokenize L tokenizer dummy_text seq_len) ;;
  let input_ids := to_int32 (enc_input_ids encoded) in
  let attention_mask := to_int32 (enc_attention_mask encoded) in
  print "[3/6] Tracing wrapper to TorchScript (this may take a moment)..." ;;
  traced <- trace_or_script wrapper input_ids attention_mask ;;
  print "[4/6] Converting TorchScript -> Core ML (ML Program). This may take a while." ;;
  mlmodel <- try_except
               (invoke (ct_convert (declared_inputs input_ids attention_mask))
                       (coremltools_convert L traced
                          (declared_inputs input_ids attention_mask)))
               (fun e => print ("Conversion failed: " ++ exn_str e) ;; raise e) ;;
  mlmodel <- always (set_short_description description)
               (with_short_description description mlmodel) ;;
  mlmodel <- always (set_author converted_from) (with_author converted_from mlmodel) ;;
  mlmodel <- always (set_license license_note) (with_license license_note mlmodel) ;;
  let output_package := package_name output_package in
  print ("[5/6] Saving Core ML ML Program package to '" ++ output_package ++ "'") ;;
  try_except
    (invoke (mlmodel_save output_package) (save L mlmodel output_package))
    (fun e => print ("Failed to save as .mlpackage: " ++ exn_str e) ;; raise e) ;;
  print "[6/6] Conversion complete ✅" ;;
  abs_path <- ask (os_path_abspath output_package) (abspath L output_package) ;;
  print ("Saved ML Program package: " ++ abs_path) ;;
  print "You can now drag this .mlpackage into Xcode (iOS 15+ / macOS 12+)." ;;
  ret abs_path.

(** *** The entry point

    The parsed command line, with the defaults of the argument parser. *)
Record Args := {
  arg_model : string;
  arg_seq_len : Z;
  arg_output : string
}.

Definition default_args : Args :=
  {| arg_model := "sentence-transformers/all-MiniLM-L6-v2";
     arg_seq_len := 64;
     arg_output := "AllMiniLML6V2.mlpackage" |}.

(** Lines 118-124.  The value is the exit status of the process: 1 from
    [sys.exit(1)], 0 when the script runs to its end. *)
Definition main (args : Args) : M Z :=
  try_except
    (convert (arg_model args) (arg_seq_len args) (arg_output args) ;;
     ret 0%Z)
    (fun exc =>
       print (String "010" "Conversion failed with exception:") ;;
       emit (Traceback exc) ;;
       ret 1%Z).

(** *** Reading a log *)

Definition calls (l : list event) : list (call * outcome) :=
  flat_map (fun ev => match ev with Called c o => [(c, o)] | _ => [] end) l.

Definition is_jit_trace (c : call) : bool :=
  match c with jit_trace _ _ _ => true | _ => false end.

(** The calls of a run up to the tracing step, when none of them raises. *)
Definition calls_before_trace (model_name : string) (seq_len : Z)
  : list (call * outcome) :=
  [ (AutoTokenizer_from_pretrained model_name, Returned);
    (AutoModel_from_pretrained model_name, Returned);
    (model_eval, Returned);
    (PoolingWrapper_init, Returned);
    (tokenizer_call dummy_text seq_len, Returned) ].

(** The calls of a run after the tracing step, when none of them raises. *)
Definition calls_after_trace (input_ids attention_mask : itensor)
  (output_package : string) : list (call * outcome) :=
  [ (traced_eval, Returned);
    (ct_convert (declared_inputs input_ids attention_mask), Returned);
    (set_short_description description, Returned);
    (set_author converted_from, Returned);
    (set_license license_note, Returned);
    (mlmodel_save (package_name output_package), Returned);
    (os_path_abspath (package_name output_package), Returned) ].

(** The path of every [mlmodel.save] call in a list of calls is [p]. *)
Definition saves_only (p : string) (l : list (call * outcome)) : Prop :=
  Forall (fun co => match fst co with
                    | mlmodel_save q => q = p
                    | _ => True
                    end) l.

(** Every model of the hub is well shaped. *)
Definition hub_well_shaped : Prop :=
  forall name w m, snd (model_from_pretrained L name w) = Ok m -> well_shaped m.

End Script.

Arguments program {Program} m.
Arguments short_description {Program} m.
Arguments author {Program} m.
Arguments license {Program} m.
Arguments with_short_description {Program} s m.
Arguments with_author {Program} s m.
Arguments with_license {Program} s m.
Arguments tokenizer_from_pretrained {W Tokenizer Traced Program} l _ _.
Arguments model_from_pretrained {W Tokenizer Traced Program} l _ _.
Arguments tokenize {W Tokenizer Traced Program} l _ _ _ _.
Arguments torch_jit_trace {W Tokenizer Traced Program} l _ _ _ _.
Arguments torch_jit_script {W Tokenizer Traced Program} l _ _.
Arguments coremltools_convert {W Tokenizer Traced Program} l _ _ _.
Arguments save {W Tokenizer Traced Program} l _ _ _.
Arguments abspath {W Tokenizer Traced Program} l _ _.
Arguments log {W A} r.
Arguments world {W A} r.
Arguments value {W A} r.
Arguments trace_or_script {W Tokenizer Traced Program} L wrapper input_ids attention_mask _.
Arguments convert {W Tokenizer Traced Program} L model_name seq_len output_package _.
Arguments main {W Tokenizer Traced Program} L args _.
Arguments hub_well_shaped {W Tokenizer Traced Program} L.

End Pipeline.

(* ------------------------------------------------------------------ *)
(** ** Concrete models and libraries, for the examples *)
(* ------------------------------------------------------------------ *)

Module Demo.

Import Tensor Path Pipeline.
Local Open Scope string_scope.

(** A base model with hidden size [H] whose hidden states are all ones. *)
Definition ones_model (H : nat) : Model :=
  {| hidden_size := H;
     last_hidden_state := fun ids _ => map (map (fun _ => repeat 1%R H)) ids |}.

(** A base model with hidden size 2 that answers two positions with the two
    unit vectors. *)
Definition unit_vectors_model : Model :=
  {| hidden_size := 2;
     last_hidden_state := fun _ _ => [[ [1%R; 0%R]; [0%R; 1%R] ]] |}.

(** The world: the paths saved so far, newest first. *)
Definition World := list string.

(** Libraries over [World].  The hub has a model of hidden size [H] under
    every name but the empty one; the tokenizer needs room for its two
    special tokens; tracing works when [trace_ok]; the traced module
    remembers the wrapper it came from. *)
Definition libs (H : nat) (trace_ok : bool)
  : Libs World unit PoolingWrapper unit :=
  {| tokenizer_from_pretrained := fun _ w => (w, Ok tt);
     model_from_pretrained := fun name w =>
       (w, if String.eqb name ""
           then Raise {| exn_class := "OSError"; exn_str := "no such model" |}
           else Ok (ones_model H));
     tokenize := fun _ _ n w =>
       (w, if (n <? 2)%Z
           then Raise {| exn_class := "ValueError"; exn_str := "max_length too small" |}
           else Ok {| enc_input_ids :=
                        [firstn (Z.to_nat n) ([101; 2023; 102]%Z ++ repeat 0%Z (Z.to_nat n))];
                      enc_attention_mask :=
                        [firstn (Z.to_nat n) ([1; 1; 1]%Z ++ repeat 0%Z (Z.to_nat n))] |});
     torch_jit_trace := fun p _ _ w =>
       (w, if trace_ok then Ok p
           else Raise {| exn_class := "RuntimeError"; exn_str := "cannot trace" |});
     torch_jit_script := fun p w => (w, Ok p);
     coremltools_convert := fun _ _ w =>
       (w, Ok {| program := tt; short_description := ""; author := "";
                 license := "" |});
     save := fun _ path w => (path :: w, Ok tt);
     abspath := fun path _ => "/work/" ++ path |}.

End Demo.

(* ------------------------------------------------------------------ *)
(** ** Further notions: the int32 range, what a run prints, the data flow
       of a successful run *)
(* ------------------------------------------------------------------ *)

Module More.

Import Tensor Path Pipeline Demo.
Local Open Scope string_scope.

(** The values of a 32-bit signed integer. *)
Definition in_int32 (z : Z) : Prop := (- 2 ^ 31 <= z < 2 ^ 31)%Z.

(** The hidden states [hs] of one batch entry, with [g h] in place of [h]
    at every position whose mask value is 0. *)
Definition replace_masked (g : vec -> vec) (hs : list vec) (ms : list Z)
  : list vec :=
  map2 (fun h m => if Z.eqb m 0 then g h else h) hs ms.

(** The model [m], with its hidden states at masked positions replaced. *)
Definition scrambled_model (m : Model) (g : vec -> vec) : Model :=
  {| hidden_size := hidden_size m;
     last_hidden_state := fun ids mask =>
       map2 (replace_masked g) (last_hidden_state m ids mask) mask |}.

(** The lines a run prints, in order. *)
Definition prints (l : list event) : list string :=
  flat_map (fun ev => match ev with Print s => [s] | _ => [] end) l.

Definition progress_before (model_name : string) : list string :=
  [ "[1/6] Loading tokenizer and model: " ++ model_name;
    "[2/6] Preparing dummy inputs for TorchScript trace";
    "[3/6] Tracing wrapper to TorchScript (this may take a moment)..." ].

Definition fallback_messages (e : exn) : list string :=
  [ "Tracing failed with error: " ++ exn_str e;
    "Trying torch.jit.script fallback..." ].

Definition progress_after (output_package abs_path : string) : list string :=
  [ "[4/6] Converting TorchScript -> Core ML (ML Program). This may take a while.";
    "[5/6] Saving Core ML ML Program package to '" ++ package_name output_package ++ "'";
    "[6/6] Conversion complete ✅";
    "Saved ML Program package: " ++ abs_path;
    "You can now drag this .mlpackage into Xcode (iOS 15+ / macOS 12+)." ].

(** What the libraries answer, call by call, in a run of [convert] that
    succeeds: every call starts in the world the previous one left, and
    works on the value the previous ones returned. *)
Section Flow.
Context {W Tokenizer Traced Program : Type} (L : Libs W Tokenizer Traced Program).




End Flow.


End More.

(* ------------------------------------------------------------------ *)
(** ** Facts about [PoolingWrapper.forward] *)
(* ------------------------------------------------------------------ *)

Module TensorFacts.

Import Tensor Demo.
Local Open Scope R_scope.

Lemma length_vadd u v : length (vadd u v) = Nat.min (length u) (length v).
Proof. unfold vadd, map2. now rewrite length_map, length_combine. Qed.

Lemma length_vscale h m : length (vscale h m) = length h.
Proof. apply length_map. Qed.

Lemma length_sum_seq H rows :
  Forall (fun v : vec => length v = H) rows -> length (sum_seq H rows) = H.
Proof.
  induction 1 as [|v rows Hv _ IH]; simpl.
  - apply repeat_length.
  - rewrite length_vadd, Hv.
    change (fold_right vadd (repeat 0 H) rows) with (sum_seq H rows).
    rewrite IH. apply Nat.min_id.
Qed.

Lemma vscale_one h : vscale h 1 = h.
Proof.
  unfold vscale. induction h as [|x h IH]; simpl; [reflexivity|].
  rewrite IH. f_equal. lra.
Qed.

Lemma vadd_vscale_zero h acc :
  length h = length acc -> vadd (vscale h 0) acc = acc.
Proof.
  revert acc. induction h as [|x h IH]; intros [|a acc] E; simpl in *;
    try discriminate; [reflexivity|].
  unfold vadd, map2 in *. simpl. f_equal; [lra|].
  apply IH. lia.
Qed.

Lemma rsum_sq_nonneg v : 0 <= rsum (map (fun x => x * x) v).
Proof. induction v as [|x v IH]; simpl; [lra|nra]. Qed.

Lemma rsum_sq_div v n :
  n <> 0 ->
  rsum (map (fun x => x * x) (map (fun x => x / n) v))
  = rsum (map (fun x => x * x) v) / (n * n).
Proof.
  intros Hn. induction v as [|x v IH]; simpl.
  - unfold Rdiv. ring.
  - rewrite IH. now field.
Qed.


Lemma map2_cons {A B C} (f : A -> B -> C) a l b l' :
  map2 f (a :: l) (b :: l') = f a b :: map2 f l l'.
Proof. reflexivity. Qed.

Lemma map2_ext_Forall2 {A B C} (f g : A -> B -> C) (P : A -> B -> Prop) l l' :
  (forall a b, P a b -> f a b = g a b) ->
  Forall2 P l l' -> map2 f l l' = map2 g l l'.
Proof.
  intros Hfg. induction 1 as [|a b l l' Hab _ IH]; [reflexivity|].
  rewrite !map2_cons, IH, (Hfg _ _ Hab). reflexivity.
Qed.

Lemma pooled_rows w ids mask :
  pooled w ids mask
  = map2 (pooled_row (hidden_size (base w)))
         (last_hidden_state (base w) ids mask) mask.
Proof.
  unfold pooled, div_rows, denominators, mul_mask, float_mask.
  generalize (last_hidden_state (base w) ids mask) as lh.
  induction mask as [|ms mask IH]; intros [|hs lh]; try reflexivity.
  specialize (IH lh). unfold map2 at 1 2 4 in IH. unfold map2 at 1 2 4.
  simpl. f_equal. exact IH.
Qed.

Lemma forward_pooled w ids mask :
  forward w ids mask = map normalize (pooled w ids mask).
Proof. reflexivity. Qed.

Lemma Forall_length_mul_row H hs ms :
  Forall (fun v : vec => length v = H) hs ->
  Forall (fun v : vec => length v = H) (map2 vscale hs ms).
Proof.
  intros Hhs. revert ms.
  induction Hhs as [|h hs Hh _ IH]; intros [|m ms]; try constructor.
  - now rewrite length_vscale.
  - apply IH.
Qed.

Lemma sum_seq_cons H v rows : sum_seq H (v :: rows) = vadd v (sum_seq H rows).
Proof. reflexivity. Qed.

Section BinaryRow.

Variable H : nat.

Lemma sum_masked_unmasked hs ms :
  Forall (fun v : vec => length v = H) hs ->
  Forall (fun m => m = 0%Z \/ m = 1%Z) ms ->
  sum_seq H (map2 vscale hs (map IZR ms)) = sum_seq H (unmasked hs ms).
Proof.
  intros Hhs. revert ms.
  induction Hhs as [|h hs Hh Hrest IH]; intros [|m ms] Hms; try reflexivity.
  apply Forall_cons_iff in Hms as [Hm Hms'].
  simpl map. rewrite map2_cons, sum_seq_cons, (IH _ Hms').
  unfold unmasked. simpl combine. simpl filter.
  destruct Hm as [-> | ->]; simpl.
  - apply vadd_vscale_zero. rewrite Hh. symmetry. apply length_sum_seq.
    fold (unmasked hs ms).
    clear -Hrest. revert ms.
    induction Hrest as [|h hs Hh _ IH]; intros [|m ms]; try constructor.
    unfold unmasked. simpl. destruct (m =? 0)%Z; simpl.
    + apply IH.
    + constructor; [exact Hh | apply IH].
  - now rewrite vscale_one.
Qed.

Lemma sum_mask_count (hs : list vec) ms :
  length hs = length ms ->
  Forall (fun m => m = 0%Z \/ m = 1%Z) ms ->
  rsum (map IZR ms) = INR (length (unmasked hs ms)).
Proof.
  revert ms. induction hs as [|h hs IH]; intros [|m ms] E Hms; try discriminate.
  - reflexivity.
  - apply Forall_cons_iff in Hms as [Hm Hms'].
    simpl in E. injection E as E.
    specialize (IH _ E Hms').
    destruct Hm as [-> | ->]; unfold unmasked; simpl; fold (unmasked hs ms).
    + rewrite IH. lra.
    + rewrite IH.
      destruct (length (unmasked hs ms)); [simpl; lra | lra].
Qed.

Lemma sum_mask_ge_1 ms :
  Forall (fun m => m = 0%Z \/ m = 1%Z) ms -> In 1%Z ms -> 1 <= rsum (map IZR ms).
Proof.
  intros Hms.
  assert (Hnn : forall l, Forall (fun m => m = 0%Z \/ m = 1%Z) l -> 0 <= rsum (map IZR l)).
  { induction 1 as [|m l [-> | ->] _ IH]; simpl; lra. }
  induction Hms as [|m ms Hm Hms IH]; intros Hin; [destruct Hin|].
  simpl. destruct Hin as [-> | Hin].
  - specialize (Hnn _ Hms). lra.
  - specialize (IH Hin). destruct Hm as [-> | ->]; lra.
Qed.

Lemma pooled_row_reference hs ms :
  length hs = length ms ->
  Forall (fun v : vec => length v = H) hs ->
  Forall (fun m => m = 0%Z \/ m = 1%Z) ms ->
  In 1%Z ms ->
  pooled_row H hs ms = masked_mean H hs ms /\
  pooled_row H hs ms = reference_mean_pool H hs ms.
Proof.
  intros E Hhs Hms Hin.
  assert (Hc : clamp_min 1e-9 (rsum (map IZR ms)) = rsum (map IZR ms)).
  { unfold clamp_min. apply Rmax_left.
    pose proof (sum_mask_ge_1 ms Hms Hin). lra. }
  unfold pooled_row, masked_mean, reference_mean_pool. rewrite Hc.
  split; [reflexivity|].
  now rewrite (sum_mask_count hs ms E Hms), sum_masked_unmasked.
Qed.

End BinaryRow.

(** C1, as amended.  On a mask whose entries are 0 or 1, with a 1 in every
    row, and hidden states that have one vector of [hidden_size] numbers per
    mask position, [forward] returns the L2 normalisation of the masked
    mean (every hidden vector times its mask value, summed over the
    sequence, divided by the sum of the mask values), and its pooling is
    the reference mean pooling: the sum of the hidden states at the unmasked
    positions over the number of unmasked positions. *)
Theorem forward_mean_pooling w ids mask :
  shaped_like (last_hidden_state (base w) ids mask) mask (hidden_size (base w)) ->
  binary_mask mask ->
  forward w ids mask
  = map normalize
      (map2 (masked_mean (hidden_size (base w)))
            (last_hidden_state (base w) ids mask) mask) /\
  pooled w ids mask = reference_pooled w ids mask /\
  forward w ids mask = reference_forward w ids mask.
Proof.
  intros Hshape Hbin.
  assert (HF : Forall2 (fun hs ms =>
                 pooled_row (hidden_size (base w)) hs ms
                   = masked_mean (hidden_size (base w)) hs ms /\
                 pooled_row (hidden_size (base w)) hs ms
                   = reference_mean_pool (hidden_size (base w)) hs ms)
               (last_hidden_state (base w) ids mask) mask).
  { unfold shaped_like, binary_mask in *.
    induction Hshape as [|hs ms lh mask [E Hhs] _ IH]; constructor.
    - apply Forall_cons_iff in Hbin as [[Hms Hin] _].
      now apply pooled_row_reference.
    - apply IH. now apply Forall_cons_iff in Hbin as [_ Hbin]. }
  rewrite forward_pooled. unfold reference_forward, reference_pooled.
  rewrite pooled_rows.
  repeat split; [f_equal| |f_equal];
    (eapply map2_ext_Forall2; [|exact HF]); cbv beta; intros a b [? ?]; assumption.
Qed.


Ltac run_tensor :=
  cbv [pooled forward reference_forward reference_pooled reference_mean_pool
       masked_mean unmasked base last_hidden_state hidden_size
       unit_vectors_model ones_model float_mask mul_mask map2 denominators
       div_rows sum_seq vadd vscale rsum clamp_min
       map combine fst snd fold_right repeat filter negb Z.eqb Pos.eqb length].

(** C1 fails as stated.  The mask [[2; 1]] has a nonzero entry, and the
    pooling of [forward] weighs the first hidden state twice: neither the
    pooled vector nor the normalised result is that of the reference mean
    pooling. *)
Lemma weighted_mask_not_reference :
  let w := {| base := unit_vectors_model |} in
  let ids := [[101; 102]]%Z in
  let mask := [[2; 1]]%Z in
  shaped_like (last_hidden_state (base w) ids mask) mask (hidden_size (base w)) /\
  Forall (fun row => exists m, In m row /\ m <> 0%Z) mask /\
  pooled w ids mask <> reference_pooled w ids mask /\
  forward w ids mask <> reference_forward w ids mask.
Proof.
  cbv zeta. split; [|split; [|split]].
  - repeat constructor.
  - constructor; [|constructor]. exists 2%Z. split; [now left | discriminate].
  - run_tensor. rewrite Rmax_left by lra. simpl INR.
    intros Heq. injection Heq as H1 _. lra.
  - run_tensor. rewrite !(Rmax_left (2 + (1 + 0))) by lra. simpl INR.
    intros Heq. injection Heq as H1 H2.
    match type of H1 with
    | _ / ?n = _ / ?n' =>
        assert (Hn : 0 < n)
          by (apply Rlt_le_trans with normalize_eps;
              [unfold normalize_eps; lra | apply Rmax_r]);
        generalize dependent n; generalize dependent n'
    end.
    intros N' N H1 H2 HN.
    assert (E : / N = 0) by (unfold Rdiv in *; lra).
    pose proof (Rinv_0_lt_compat N HN). lra.
Qed.


(** C9.  The divisors of the mean pooling are the clamped mask sums: each
    of them is at least 1e-9, hence not zero, whatever the attention mask
    is, the all-zero mask included. *)
Theorem denominators_positive w ids mask :
  pooled w ids mask
  = div_rows
      (map (sum_seq (hidden_size (base w)))
           (mul_mask (last_hidden_state (base w) ids mask) (float_mask mask)))
      (denominators (float_mask mask)) /\
  Forall (fun d => 1e-9 <= d /\ d <> 0) (denominators (float_mask mask)).
Proof.
  split; [reflexivity|].
  unfold denominators. apply Forall_map, Forall_forall. intros ms _.
  unfold clamp_min. pose proof (Rmax_r (rsum ms) 1e-9). split; lra.
Qed.

Lemma length_pooled_row H hs ms :
  Forall (fun v : vec => length v = H) hs -> length (pooled_row H hs ms) = H.
Proof.
  intros Hhs. unfold pooled_row. rewrite length_map.
  now apply length_sum_seq, Forall_length_mul_row.
Qed.

Lemma length_normalize v : length (normalize v) = length v.
Proof. apply length_map. Qed.



Lemma forward_mean_pooling_witness :
  let w := {| base := ones_model 2 |} in
  let ids := [[101; 102]]%Z in
  let mask := [[1; 0]]%Z in
  shaped_like (last_hidden_state (base w) ids mask) mask (hidden_size (base w)) /\
  binary_mask mask /\
  forward w ids mask = reference_forward w ids mask.
Proof.
  cbv zeta.
  assert (Hs : shaped_like
                 (last_hidden_state (base {| base := ones_model 2 |})
                    [[101; 102]]%Z [[1; 0]]%Z)
                 [[1; 0]]%Z (hidden_size (base {| base := ones_model 2 |}))).
  { repeat constructor. }
  assert (Hb : binary_mask [[1; 0]]%Z).
  { constructor; [split|constructor].
    - constructor; [now right | constructor; [now left | constructor]].
    - now left. }
  split; [exact Hs | split; [exact Hb |]].
  apply (forward_mean_pooling {| base := ones_model 2 |}
           [[101; 102]]%Z [[1; 0]]%Z Hs Hb).
Defined.


End TensorFacts.

(* ------------------------------------------------------------------ *)
(** ** Facts about the name of the output package *)
(* ------------------------------------------------------------------ *)

Module PathFacts.

Import Path.
Local Open Scope string_scope.

Lemma substring_all t : substring 0 (String.length t) t = t.
Proof. induction t as [|c t IH]; simpl; [reflexivity | now rewrite IH]. Qed.

Lemma substring_append s t :
  substring (String.length s) (String.length t) (s ++ t) = t.
Proof. induction s as [|c s IH]; simpl; [apply substring_all | exact IH]. Qed.

Lemma length_append s t :
  String.length (s ++ t) = (String.length s + String.length t)%nat.
Proof. induction s as [|c s IH]; simpl; [reflexivity | now rewrite IH]. Qed.

Lemma endswith_append s t : endswith (s ++ t) t = true.
Proof.
  unfold endswith. rewrite length_append.
  replace (String.length t <=? String.length s + String.length t)%nat with true
    by (symmetry; apply Nat.leb_le; lia).
  replace (String.length s + String.length t - String.length t)%nat
    with (String.length s) by lia.
  rewrite substring_append. apply String.eqb_refl.
Qed.

Lemma package_name_cases s :
  if endswith s ".mlpackage" then package_name s = s
  else package_name s = s ++ ".mlpackage".
Proof. unfold package_name. now destruct (endswith s ".mlpackage"). Qed.

Lemma package_name_endswith s : endswith (package_name s) ".mlpackage" = true.
Proof.
  pose proof (package_name_cases s) as H.
  destruct (endswith s ".mlpackage") eqn:E; rewrite H;
    [exact E | apply endswith_append].
Qed.

Lemma package_name_idempotent s : package_name (package_name s) = package_name s.
Proof.
  pose proof (package_name_cases (package_name s)) as H.
  now rewrite package_name_endswith in H.
Qed.

End PathFacts.

(* ------------------------------------------------------------------ *)
(** ** Facts about the pipeline *)
(* ------------------------------------------------------------------ *)

Module PipelineFacts.

Import Tensor Path Pipeline Demo.
Local Open Scope string_scope.

(** Symbolic execution of the script: unfold the monad, then split on what
    each library call answers. *)
Ltac exec :=
  cbv [convert main trace_or_script bind try_except invoke always ask print
       emit ret raise after log world value outcome_of app
       calls flat_map calls_before_trace calls_after_trace].

Ltac lib_case :=
  match goal with
  | |- context [match ?op with (_, _) => _ end] =>
      let e := fresh "e" in
      destruct op as [? [? | e]] eqn:?; exec
  end.

Ltac run_script := exec; repeat lib_case.

(** Membership in a list that is written out. *)
Ltac in_cases :=
  repeat match goal with
    | H : In _ (_ :: _) |- _ => destruct H as [H | H]
    | H : In _ [] |- _ => destruct H
    | H : (_, _) = (_, _) |- _ => inversion H; clear H; subst
    | H : Raise _ = Raise _ |- _ => inversion H; clear H; subst
    end.

Section Facts.
Context {W Tokenizer Traced Program : Type} (L : Libs W Tokenizer Traced Program).

(** C6.  A run of [convert] that succeeds makes its library calls in this
    order, each returning before the next is made: load the tokenizer, load
    the model (and put it in evaluation mode), wrap it, encode the dummy
    text, trace the wrapper, convert, set the three metadata fields, save,
    and ask for the absolute path.  Every call is made once; the only
    variation is the fallback, [jit_script] right after a [jit_trace] that
    raised. *)
Theorem convert_call_order name n out w p :
  value (convert L name n out w) = Ok p ->
  exists wrapper ids mask,
    calls (log (convert L name n out w))
    = (calls_before_trace name n
       ++ [(jit_trace wrapper ids mask, Returned)]
       ++ calls_after_trace ids mask out)%list
    \/
    exists e,
      calls (log (convert L name n out w))
      = (calls_before_trace name n
         ++ [(jit_trace wrapper ids mask, Raised e); (jit_script wrapper, Returned)]
         ++ calls_after_trace ids mask out)%list.
Proof.
  run_script; intros Hv; try discriminate Hv.
  - eexists _, _, _. left. reflexivity.
  - eexists _, _, _. right. eexists. reflexivity.
Qed.

(** C10.  On success [convert] returns the absolute path of the normalised
    output name, and that name is the one [mlmodel.save] was called with,
    in its only call. *)
Theorem convert_returns_saved_path name n out w p :
  value (convert L name n out w) = Ok p ->
  p = abspath L (package_name out) (world (convert L name n out w)) /\
  In (mlmodel_save (package_name out), Returned)
     (calls (log (convert L name n out w))) /\
  saves_only (package_name out) (calls (log (convert L name n out w))).
Proof.
  unfold saves_only.
  run_script; intros Hv; try discriminate Hv; injection Hv as <-;
    (split; [reflexivity | split; [simpl; tauto | repeat constructor]]).
Qed.

(** C4.  In every run of [convert], [torch.jit.script] is called exactly
    when [torch.jit.trace] raised; after a trace that returned it is never
    called; and there is no other recovery: when any other call raises, it
    is the last call of the run and [convert] raises its exception. *)
Theorem script_only_after_failed_trace name n out w :
  let l := calls (log (convert L name n out w)) in
  ((exists wr o, In (jit_script wr, o) l) <->
   (exists wr ids mask e, In (jit_trace wr ids mask, Raised e) l)) /\
  (forall wr ids mask, In (jit_trace wr ids mask, Returned) l ->
     forall wr' o, ~ In (jit_script wr', o) l) /\
  (forall c e, In (c, Raised e) l -> is_jit_trace c = false ->
     value (convert L name n out w) = Raise e /\
     exists l', l = (l' ++ [(c, Raised e)])%list).
Proof.
  run_script; cbv zeta; (split; [split | split]).
  all: try (intros (? & ? & H); in_cases; discriminate).
  all: try (intros (? & ? & ? & ? & H); in_cases; discriminate).
  all: try (intros ? ? ? H; in_cases; try discriminate; intros ? ? H'; in_cases; discriminate).
  all: try (intros ? ? H Hc; in_cases; try discriminate; split; [reflexivity|];
            match goal with
            | |- exists l', ?l = _ => exists (removelast l); reflexivity
            end).
  all: try (intros _; eexists _, _, _, _; simpl; eauto 10).
  all: try (intros _; eexists _, _; simpl; eauto 10).
Qed.


(** C7.  Every [mlmodel.save] of a run is given [package_name out], which
    ends with ".mlpackage": it is [out] itself when [out] already ends so,
    and [out] with ".mlpackage" appended once otherwise.  Normalising twice
    changes nothing more. *)
Theorem saved_name_has_suffix name n out w :
  saves_only (package_name out) (calls (log (convert L name n out w))) /\
  endswith (package_name out) ".mlpackage" = true /\
  (if endswith out ".mlpackage" then package_name out = out
   else package_name out = out ++ ".mlpackage") /\
  package_name (package_name out) = package_name out.
Proof.
  split; [|split; [|split]].
  - unfold saves_only. run_script; repeat constructor.
  - apply PathFacts.package_name_endswith.
  - apply PathFacts.package_name_cases.
  - apply PathFacts.package_name_idempotent.
Qed.

Lemma main_run args w :
  main L args w
  = match convert L (arg_model args) (arg_seq_len args) (arg_output args) w with
    | {| log := l; world := w1; value := Ok _ |} =>
        {| log := l; world := w1; value := Ok 0%Z |}
    | {| log := l; world := w1; value := Raise e |} =>
        {| log := (l ++ [Print (String "010" "Conversion failed with exception:");
                         Traceback e])%list;
           world := w1; value := Ok 1%Z |}
    end.
Proof.
  unfold main, try_except, bind.
  destruct (convert L (arg_model args) (arg_seq_len args) (arg_output args) w)
    as [l w1 [p | e]]; cbn; [now rewrite app_nil_r | reflexivity].
Qed.

Lemma calls_app l l' : calls (l ++ l')%list = (calls l ++ calls l')%list.
Proof. apply flat_map_app. Qed.

(** C5.  When [convert] raises, the entry point prints the error (the
    message and the traceback) and exits with status 1; it makes no further
    library call and leaves the world as [convert] left it.  A failure of
    the conversion or of the save is the exception [convert] raises, after
    the message that reports it was printed. *)
Theorem main_exits_1_on_exception args w e :
  let rc := convert L (arg_model args) (arg_seq_len args) (arg_output args) w in
  value rc = Raise e ->
  value (main L args w) = Ok 1%Z /\
  log (main L args w)
  = (log rc ++ [Print (String "010" "Conversion failed with exception:");
                Traceback e])%list /\
  calls (log (main L args w)) = calls (log rc) /\
  world (main L args w) = world rc /\
  (forall inputs e', In (ct_convert inputs, Raised e') (calls (log rc)) ->
     e' = e /\ In (Print ("Conversion failed: " ++ exn_str e')) (log rc)) /\
  (forall path e', In (mlmodel_save path, Raised e') (calls (log rc)) ->
     e' = e /\ In (Print ("Failed to save as .mlpackage: " ++ exn_str e')) (log rc)).
Proof.
  intros rc Hv.
  assert (Hmain : value (main L args w) = Ok 1%Z /\
                  log (main L args w)
                  = (log rc ++ [Print (String "010" "Conversion failed with exception:");
                                Traceback e])%list /\
                  world (main L args w) = world rc).
  { rewrite main_run. fold rc. destruct rc as [l w1 [p | e0]]; cbn in *;
      [discriminate | injection Hv as ->; auto]. }
  destruct Hmain as (H1 & H2 & H3).
  split; [exact H1 | split; [exact H2 | split; [| split; [exact H3|]]]].
  - rewrite H2, calls_app. cbn. apply app_nil_r.
  - clear H1 H2 H3. revert Hv. subst rc.
    destruct args as [name n out]. cbn [arg_model arg_seq_len arg_output].
    run_script; intros Hv; try discriminate Hv; injection Hv as <-.
    all: split; intros ? ? H; in_cases; try discriminate;
      (split; [reflexivity | simpl; tauto]).
Qed.

Theorem main_exits_0_on_success args w p :
  value (convert L (arg_model args) (arg_seq_len args) (arg_output args) w) = Ok p ->
  value (main L args w) = Ok 0%Z.
Proof.
  intros Hv. rewrite main_run.
  destruct (convert L (arg_model args) (arg_seq_len args) (arg_output args) w)
    as [l w1 [q | e]]; [reflexivity | discriminate].
Qed.


End Facts.

(** *** The example libraries *)

Lemma ones_model_well_shaped H : well_shaped (ones_model H).
Proof.
  intros ids mask. unfold shaped_like. cbn.
  induction ids as [|row ids IH]; constructor; [|exact IH].
  split; [apply length_map|].
  apply Forall_map, Forall_forall. intros _ _. apply repeat_length.
Qed.

Lemma libs_hub_well_shaped H ok : hub_well_shaped (libs H ok).
Proof.
  intros name w m. cbn.
  destruct (String.eqb name ""); [discriminate|].
  intros [= <-]. apply ones_model_well_shaped.
Qed.

Lemma convert_call_order_witness :
  value (convert (libs 384 false) "m" 4 "out" []) = Ok "/work/out.mlpackage" /\
  exists wrapper ids mask,
    calls (log (convert (libs 384 false) "m" 4 "out" []))
    = (calls_before_trace "m" 4
       ++ [(jit_trace wrapper ids mask, Returned)]
       ++ calls_after_trace ids mask "out")%list
    \/
    exists e,
      calls (log (convert (libs 384 false) "m" 4 "out" []))
      = (calls_before_trace "m" 4
         ++ [(jit_trace wrapper ids mask, Raised e); (jit_script wrapper, Returned)]
         ++ calls_after_trace ids mask "out")%list.
Proof.
  split; [reflexivity|].
  apply (convert_call_order (libs 384 false) "m" 4 "out" [] "/work/out.mlpackage").
  reflexivity.
Defined.

Lemma convert_returns_saved_path_witness :
  value (convert (libs 384 true) "m" 4 "out" []) = Ok "/work/out.mlpackage" /\
  "/work/out.mlpackage"
  = abspath (libs 384 true) (package_name "out")
      (world (convert (libs 384 true) "m" 4 "out" [])) /\
  In (mlmodel_save (package_name "out"), Returned)
     (calls (log (convert (libs 384 true) "m" 4 "out" []))) /\
  saves_only (package_name "out")
     (calls (log (convert (libs 384 true) "m" 4 "out" []))).
Proof.
  split; [reflexivity|].
  apply (convert_returns_saved_path (libs 384 true) "m" 4 "out" []
           "/work/out.mlpackage").
  reflexivity.
Defined.

Lemma main_exits_1_on_exception_witness :
  let args := {| arg_model := ""; arg_seq_len := 64; arg_output := "out" |} in
  let e := {| exn_class := "OSError"; exn_str := "no such model" |} in
  value (convert (libs 384 true) (arg_model args) (arg_seq_len args)
           (arg_output args) []) = Raise e /\
  value (main (libs 384 true) args []) = Ok 1%Z.
Proof.
  cbv zeta. split; [reflexivity|].
  apply (main_exits_1_on_exception (libs 384 true)
           {| arg_model := ""; arg_seq_len := 64; arg_output := "out" |} []
           {| exn_class := "OSError"; exn_str := "no such model" |}).
  reflexivity.
Defined.

Lemma script_only_after_failed_trace_witness :
  (exists wr o, In (jit_script wr, o)
                   (calls (log (convert (libs 384 false) "m" 4 "out" [])))) <->
  (exists wr ids mask e,
      In (jit_trace wr ids mask, Raised e)
         (calls (log (convert (libs 384 false) "m" 4 "out" [])))).
Proof.
  apply (script_only_after_failed_trace (libs 384 false) "m" 4 "out" []).
Defined.

End PipelineFacts.

(* ------------------------------------------------------------------ *)
(** ** More about [PoolingWrapper.forward] *)
(* ------------------------------------------------------------------ *)

Module TensorMore.

Import Tensor Demo More TensorFacts.
Local Open Scope R_scope.

Lemma norm2_nonneg v : 0 <= norm2 v.
Proof. apply sqrt_pos. Qed.

Lemma norm2_div v n : 0 < n -> norm2 (map (fun x => x / n) v) = norm2 v / n.
Proof.
  intros Hn. unfold norm2. rewrite rsum_sq_div by lra.
  rewrite sqrt_div_alt by nra.
  now rewrite sqrt_square by lra.
Qed.

Lemma normalize_divisor_pos v : 0 < Rmax (norm2 v) normalize_eps.
Proof.
  apply Rlt_le_trans with normalize_eps; [unfold normalize_eps; lra | apply Rmax_r].
Qed.

Lemma norm2_normalize_le_1 v : norm2 (normalize v) <= 1.
Proof.
  unfold normalize. pose proof (normalize_divisor_pos v) as Hd.
  rewrite norm2_div by exact Hd.
  apply Rmult_le_reg_r with (Rmax (norm2 v) normalize_eps); [exact Hd|].
  unfold Rdiv. rewrite Rmult_assoc, Rinv_l by lra.
  rewrite Rmult_1_r, Rmult_1_l. apply Rmax_l.
Qed.

Lemma component_le_norm2 v x : In x v -> Rabs x <= norm2 v.
Proof.
  intros Hin. unfold norm2.
  rewrite <- sqrt_Rsqr_abs. apply sqrt_le_1_alt. unfold Rsqr.
  induction v as [|y v IH]; [destruct Hin|].
  simpl. pose proof (rsum_sq_nonneg v).
  destruct Hin as [-> | Hin]; [lra|].
  specialize (IH Hin). nra.
Qed.

(** X1.  Whatever the inputs are, every row [forward] returns has a
    Euclidean norm between 0 and 1, and each of its components lies
    between -1 and 1. *)
Theorem forward_norm_at_most_1 w ids mask :
  Forall (fun o => 0 <= norm2 o <= 1 /\ Forall (fun x => -1 <= x <= 1) o)
         (forward w ids mask).
Proof.
  rewrite forward_pooled. apply Forall_map, Forall_forall. intros v _.
  pose proof (norm2_normalize_le_1 v) as Hle.
  split; [split; [apply norm2_nonneg | exact Hle]|].
  apply Forall_forall. intros x Hx.
  pose proof (component_le_norm2 _ _ Hx) as Hc.
  unfold Rabs in Hc. destruct (Rcase_abs x); lra.
Qed.


Lemma vscale_zero h : vscale h 0 = repeat 0 (length h).
Proof.
  unfold vscale. induction h as [|x h IH]; simpl; [reflexivity|].
  rewrite IH. f_equal. ring.
Qed.

Lemma sum_seq_zero_mask H hs ms :
  Forall (fun v : vec => length v = H) hs ->
  Forall (fun m => m = 0%Z) ms ->
  sum_seq H (map2 vscale hs (map IZR ms)) = repeat 0 H.
Proof.
  intros Hhs. revert ms.
  induction Hhs as [|h hs Hh _ IH]; intros [|m ms] Hms; try reflexivity.
  apply Forall_cons_iff in Hms as [-> Hms].
  simpl map. rewrite map2_cons, sum_seq_cons, (IH _ Hms).
  apply vadd_vscale_zero. now rewrite repeat_length.
Qed.

Lemma map_div_zeros d H : map (fun x => x / d) (repeat 0 H) = repeat 0 H.
Proof.
  induction H as [|H IH]; simpl; [reflexivity|].
  rewrite IH. f_equal. unfold Rdiv. ring.
Qed.

Lemma pooled_row_zero_mask H hs ms :
  Forall (fun v : vec => length v = H) hs ->
  Forall (fun m => m = 0%Z) ms ->
  normalize (pooled_row H hs ms) = repeat 0 H.
Proof.
  intros Hhs Hms. unfold pooled_row.
  rewrite (sum_seq_zero_mask H hs ms Hhs Hms), map_div_zeros.
  unfold normalize. apply map_div_zeros.
Qed.

(** X2.  A batch entry whose attention mask is all zero gets the zero
    vector of [hidden_size] numbers, whatever the hidden states are. *)
Theorem forward_zero_mask_rows w ids mask :
  shaped_like (last_hidden_state (base w) ids mask) mask (hidden_size (base w)) ->
  Forall2 (fun ms o => Forall (fun m => m = 0%Z) ms ->
                       o = repeat 0 (hidden_size (base w)))
          mask (forward w ids mask).
Proof.
  intros Hshape. rewrite forward_pooled, pooled_rows.
  unfold shaped_like in Hshape.
  induction Hshape as [|hs ms lh mask [_ Hhs] _ IH]; [constructor|].
  rewrite map2_cons. simpl map. constructor; [|exact IH].
  intros Hms. now apply pooled_row_zero_mask.
Qed.

(** X3.  [forward] returns one row per batch entry, each of [hidden_size]
    numbers, for any batch size and sequence length. *)
Theorem forward_batch_shape w ids mask :
  shaped_like (last_hidden_state (base w) ids mask) mask (hidden_size (base w)) ->
  length (forward w ids mask) = length mask /\
  Forall (fun o => length o = hidden_size (base w)) (forward w ids mask).
Proof.
  intros Hshape. rewrite forward_pooled, pooled_rows.
  unfold shaped_like in Hshape.
  induction Hshape as [|hs ms lh mask [_ Hhs] _ [IHl IHf]]; [split; constructor|].
  rewrite map2_cons. simpl. split; [now rewrite IHl|].
  constructor; [|exact IHf].
  now rewrite length_normalize, length_pooled_row.
Qed.

Lemma mul_row_replace_masked g hs ms :
  (forall h, length (g h) = length h) ->
  map2 vscale (replace_masked g hs ms) (map IZR ms) = map2 vscale hs (map IZR ms).
Proof.
  intros Hg. revert ms.
  induction hs as [|h hs IH]; intros [|m ms]; try reflexivity.
  unfold replace_masked in *. simpl map. rewrite !map2_cons, IH. f_equal.
  destruct (Z.eqb_spec m 0) as [-> | _]; [|reflexivity].
  now rewrite !vscale_zero, Hg.
Qed.

Lemma pooled_row_replace_masked H g hs ms :
  (forall h, length (g h) = length h) ->
  pooled_row H (replace_masked g hs ms) ms = pooled_row H hs ms.
Proof.
  intros Hg. unfold pooled_row. now rewrite mul_row_replace_masked.
Qed.

(** X4.  The hidden states at positions whose mask value is 0 do not
    matter: two base models of the same width whose hidden states differ
    only there (by any replacement [g] that keeps the width) give the same
    result. *)
Theorem forward_ignores_masked_positions w w' ids mask g :
  (forall h, length (g h) = length h) ->
  hidden_size (base w') = hidden_size (base w) ->
  last_hidden_state (base w') ids mask
  = map2 (replace_masked g) (last_hidden_state (base w) ids mask) mask ->
  forward w' ids mask = forward w ids mask.
Proof.
  intros Hg HH Hlh. rewrite !forward_pooled, !pooled_rows, Hlh, HH. f_equal.
  clear Hlh.
  generalize (last_hidden_state (base w) ids mask) as lh.
  induction mask as [|ms mask IH]; intros [|hs lh]; try reflexivity.
  rewrite !map2_cons, IH. f_equal. now apply pooled_row_replace_masked.
Qed.

Lemma vadd_swap a b c : vadd a (vadd b c) = vadd b (vadd a c).
Proof.
  revert b c. induction a as [|x a IH]; intros [|y b] [|z c]; try reflexivity.
  unfold vadd in *. rewrite !map2_cons. f_equal; [ring | apply IH].
Qed.

Lemma sum_seq_permutation H l l' : Permutation l l' -> sum_seq H l = sum_seq H l'.
Proof.
  induction 1 as [| v l l' _ IH | u v l | l l' l'' _ IH1 _ IH2].
  - reflexivity.
  - now rewrite !sum_seq_cons, IH.
  - rewrite !sum_seq_cons. apply vadd_swap.
  - now rewrite IH1.
Qed.

Lemma rsum_permutation l l' : Permutation l l' -> rsum l = rsum l'.
Proof.
  induction 1 as [| x l l' _ IH | x y l | l l' l'' _ IH1 _ IH2]; simpl in *; lra.
Qed.

Lemma mul_row_pairs (ps : list (vec * Z)) :
  map2 vscale (map fst ps) (map IZR (map snd ps))
  = map (fun p => vscale (fst p) (IZR (snd p))) ps.
Proof.
  induction ps as [|p ps IH]; [reflexivity|].
  simpl map. now rewrite map2_cons, IH.
Qed.

(** X5.  With the arithmetic read over the real numbers (float32 addition
    is not associative, so the code agrees up to rounding only), the
    pooling of one batch entry does not depend on the order of its
    positions: permuting the hidden states together with their mask values
    leaves the pooled vector unchanged. *)
Theorem pooled_row_permutation H (ps ps' : list (vec * Z)) :
  Permutation ps ps' ->
  pooled_row H (map fst ps) (map snd ps) = pooled_row H (map fst ps') (map snd ps').
Proof.
  intros Hp. unfold pooled_row. rewrite !mul_row_pairs.
  rewrite (sum_seq_permutation H _ _ (Permutation_map _ Hp)).
  rewrite (rsum_permutation _ _ (Permutation_map IZR (Permutation_map snd Hp))).
  reflexivity.
Qed.

Lemma nth_error_map2 {A B C} (f : A -> B -> C) l l' i a b :
  nth_error l i = Some a -> nth_error l' i = Some b ->
  nth_error (map2 f l l') i = Some (f a b).
Proof.
  revert l l'. induction i as [|i IH]; intros [|x l] [|y l'] Ha Hb;
    try discriminate; rewrite map2_cons; simpl in *.
  - now injection Ha as ->; injection Hb as ->.
  - now apply IH.
Qed.

Lemma normalize_div v d :
  0 < d -> normalize_eps <= norm2 v -> normalize_eps <= norm2 (map (fun x => x / d) v) ->
  normalize (map (fun x => x / d) v) = normalize v.
Proof.
  intros Hd Hv Hp. unfold normalize.
  rewrite (Rmax_left _ _ Hp), (Rmax_left _ _ Hv), norm2_div by exact Hd.
  assert (Hn : 0 < norm2 v) by (unfold normalize_eps in Hv; lra).
  rewrite map_map. apply map_ext. intros x. field. lra.
Qed.

(** X6.  With the arithmetic read over the real numbers (the cast of the
    mask to float and the divisions taken as exact), the divisor of the
    mean cancels after normalisation: when the masked sum of a batch entry
    and its pooled vector both have a norm of at least 1e-12, the row
    [forward] returns is the normalised masked sum. *)
Theorem forward_row_normalized_sum w ids mask i hs ms :
  nth_error (last_hidden_state (base w) ids mask) i = Some hs ->
  nth_error mask i = Some ms ->
  let summed := sum_seq (hidden_size (base w)) (map2 vscale hs (map IZR ms)) in
  normalize_eps <= norm2 summed ->
  normalize_eps <= norm2 (pooled_row (hidden_size (base w)) hs ms) ->
  nth_error (forward w ids mask) i = Some (normalize summed).
Proof.
  intros Hhs Hms summed Hs Hp.
  rewrite forward_pooled, pooled_rows.
  rewrite (map_nth_error normalize i _ (nth_error_map2 _ _ _ _ _ _ Hhs Hms)).
  f_equal. unfold pooled_row in *. fold summed in Hp |- *.
  apply normalize_div; [|exact Hs|exact Hp].
  unfold clamp_min. pose proof (Rmax_r (rsum (map IZR ms)) 1e-9). lra.
Qed.


Lemma forward_zero_mask_rows_witness :
  let w := {| base := ones_model 2 |} in
  shaped_like (last_hidden_state (base w) [[101; 0]]%Z [[0; 0]]%Z) [[0; 0]]%Z
              (hidden_size (base w)) /\
  forward w [[101; 0]]%Z [[0; 0]]%Z = [[0; 0]].
Proof.
  cbv zeta.
  assert (Hs : shaped_like
                 (last_hidden_state (base {| base := ones_model 2 |})
                    [[101; 0]]%Z [[0; 0]]%Z)
                 [[0; 0]]%Z (hidden_size (base {| base := ones_model 2 |}))).
  { repeat constructor. }
  split; [exact Hs|].
  pose proof (forward_zero_mask_rows {| base := ones_model 2 |}
                [[101; 0]]%Z [[0; 0]]%Z Hs) as HF.
  remember (forward {| base := ones_model 2 |} [[101; 0]]%Z [[0; 0]]%Z) as F eqn:EF.
  clear EF Hs.
  inversion HF as [|ms o mask' rest Ho Hrest]; subst.
  inversion Hrest; subst.
  f_equal. apply Ho. repeat constructor.
Defined.

Lemma forward_batch_shape_witness :
  let w := {| base := ones_model 3 |} in
  let ids := [[101; 7; 102]; [101; 102; 0]]%Z in
  let mask := [[1; 1; 1]; [1; 1; 0]]%Z in
  shaped_like (last_hidden_state (base w) ids mask) mask (hidden_size (base w)) /\
  length (forward w ids mask) = 2%nat /\
  Forall (fun o => length o = 3%nat) (forward w ids mask).
Proof.
  cbv zeta.
  assert (Hs : shaped_like
                 (last_hidden_state (base {| base := ones_model 3 |})
                    [[101; 7; 102]; [101; 102; 0]]%Z [[1; 1; 1]; [1; 1; 0]]%Z)
                 [[1; 1; 1]; [1; 1; 0]]%Z
                 (hidden_size (base {| base := ones_model 3 |}))).
  { repeat constructor. }
  split; [exact Hs|].
  apply (forward_batch_shape {| base := ones_model 3 |}
           [[101; 7; 102]; [101; 102; 0]]%Z [[1; 1; 1]; [1; 1; 0]]%Z Hs).
Defined.

Lemma forward_ignores_masked_positions_witness :
  let g := map (fun _ : R => 5) in
  let w := {| base := ones_model 2 |} in
  let w' := {| base := scrambled_model (ones_model 2) g |} in
  (forall h, length (g h) = length h) /\
  last_hidden_state (base w') [[101; 0]]%Z [[1; 0]]%Z = [[ [1; 1]; [5; 5] ]] /\
  forward w' [[101; 0]]%Z [[1; 0]]%Z = forward w [[101; 0]]%Z [[1; 0]]%Z.
Proof.
  cbv zeta.
  assert (Hg : forall h : vec, length (map (fun _ : R => 5) h) = length h).
  { intros h. apply length_map. }
  split; [exact Hg | split; [reflexivity|]].
  apply (forward_ignores_masked_positions
           {| base := ones_model 2 |}
           {| base := scrambled_model (ones_model 2) (map (fun _ : R => 5)) |}
           [[101; 0]]%Z [[1; 0]]%Z (map (fun _ : R => 5)) Hg);
    reflexivity.
Defined.

Lemma pooled_row_permutation_witness :
  let ps := [([1; 2], 1%Z); ([3; 4], 0%Z)] in
  let ps' := [([3; 4], 0%Z); ([1; 2], 1%Z)] in
  Permutation ps ps' /\
  pooled_row 2 [[1; 2]; [3; 4]] [1; 0]%Z = pooled_row 2 [[3; 4]; [1; 2]] [0; 1]%Z.
Proof.
  cbv zeta. split; [apply perm_swap|].
  apply (pooled_row_permutation 2 [([1; 2], 1%Z); ([3; 4], 0%Z)]
           [([3; 4], 0%Z); ([1; 2], 1%Z)]).
  apply perm_swap.
Defined.

Lemma forward_row_normalized_sum_witness :
  let w := {| base := ones_model 1 |} in
  let summed := [1 * 1 + 0] in
  normalize_eps <= norm2 summed /\
  normalize_eps <= norm2 (pooled_row 1 [[1]] [1]%Z) /\
  nth_error (forward w [[7]]%Z [[1]]%Z) 0 = Some (normalize summed).
Proof.
  cbv zeta.
  assert (Hs : normalize_eps <= norm2 [1 * 1 + 0]).
  { pose proof (component_le_norm2 [1 * 1 + 0] (1 * 1 + 0) (or_introl eq_refl)) as H.
    replace (1 * 1 + 0) with 1 in H at 1 by ring.
    rewrite Rabs_R1 in H. unfold normalize_eps. lra. }
  assert (Hp : normalize_eps <= norm2 (pooled_row 1 [[1]] [1]%Z)).
  { pose proof (component_le_norm2 (pooled_row 1 [[1]] [1]%Z)
                  ((1 * 1 + 0) / clamp_min 1e-9 (1 + 0)) (or_introl eq_refl)) as H.
    replace ((1 * 1 + 0) / clamp_min 1e-9 (1 + 0)) with 1 in H at 1.
    - rewrite Rabs_R1 in H. unfold normalize_eps. lra.
    - unfold clamp_min. rewrite Rmax_left by lra. field. }
  split; [exact Hs | split; [exact Hp|]].
  apply (forward_row_normalized_sum {| base := ones_model 1 |}
           [[7]]%Z [[1]]%Z 0%nat [[1]] [1]%Z eq_refl eq_refl Hs Hp).
Defined.

End TensorMore.

(* ------------------------------------------------------------------ *)
(** ** The cast to int32 *)
(* ------------------------------------------------------------------ *)

Module CastFacts.

Import Tensor Pipeline More.
Local Open Scope Z_scope.

Lemma wrap32_in_int32 z : in_int32 (wrap32 z).
Proof.
  unfold in_int32, wrap32.
  pose proof (Z.mod_pos_bound (z + 2 ^ 31) (2 ^ 32) ltac:(lia)). lia.
Qed.

Lemma wrap32_congruent z : wrap32 z mod 2 ^ 32 = z mod 2 ^ 32.
Proof.
  unfold wrap32.
  rewrite <- Zminus_mod_idemp_l.
  replace ((z + 2 ^ 31) mod 2 ^ 32 mod 2 ^ 32 - 2 ^ 31)
    with ((z + 2 ^ 31) mod 2 ^ 32 - 2 ^ 31).
  2:{ now rewrite Z.mod_mod by lia. }
  rewrite Zminus_mod_idemp_l. f_equal. lia.
Qed.

Lemma wrap32_id z : in_int32 z -> wrap32 z = z.
Proof.
  unfold in_int32, wrap32. intros Hz.
  rewrite Z.mod_small by lia. lia.
Qed.

(** X7.  The cast to int32 keeps the shape of a tensor, puts every entry in
    the int32 range, and changes an entry by a multiple of 2^32 only. *)
Theorem to_int32_shape_range t :
  shape2 (to_int32 t) = shape2 t /\
  map (@length Z) (to_int32 t) = map (@length Z) t /\
  Forall (Forall in_int32) (to_int32 t) /\
  Forall2 (Forall2 (fun a b => a mod 2 ^ 32 = b mod 2 ^ 32)) (to_int32 t) t.
Proof.
  unfold to_int32. repeat split.
  - unfold shape2. rewrite length_map. destruct t as [|row t]; simpl; [reflexivity|].
    now rewrite length_map.
  - rewrite map_map. apply map_ext. intros row. apply length_map.
  - apply Forall_map, Forall_forall. intros row _.
    apply Forall_map, Forall_forall. intros z _. apply wrap32_in_int32.
  - induction t as [|row t IH]; simpl; constructor; [|exact IH].
    clear IH. induction row as [|z row IH]; simpl; constructor; [|exact IH].
    apply wrap32_congruent.
Qed.

(** X8.  The cast to int32 leaves a tensor unchanged when all its entries
    are in the int32 range, as token ids and mask values are. *)
Theorem to_int32_identity t :
  Forall (Forall in_int32) t -> to_int32 t = t.
Proof.
  unfold to_int32. induction 1 as [|row t Hrow _ IH]; simpl; [reflexivity|].
  rewrite IH. f_equal.
  induction Hrow as [|z row Hz _ IHr]; simpl; [reflexivity|].
  now rewrite IHr, wrap32_id.
Qed.


Lemma to_int32_identity_witness :
  Forall (Forall in_int32) [[101; 2023; 102; 0]] /\
  to_int32 [[101; 2023; 102; 0]] = [[101; 2023; 102; 0]].
Proof.
  assert (H : Forall (Forall in_int32) [[101; 2023; 102; 0]]).
  { repeat constructor; unfold in_int32; lia. }
  split; [exact H|].
  apply (to_int32_identity [[101; 2023; 102; 0]] H).
Defined.

End CastFacts.


(* ------------------------------------------------------------------ *)
(** ** More about the name of the output package *)
(* ------------------------------------------------------------------ *)

Module PathMore.

Import Path PathFacts.
Local Open Scope string_scope.

Lemma substring_split s k :
  (k <= String.length s)%nat ->
  s = substring 0 k s ++ substring k (String.length s - k) s.
Proof.
  revert k. induction s as [|c s IH]; intros [|k] Hk; simpl in *; try lia.
  - reflexivity.
  - now rewrite substring_all.
  - f_equal. apply IH. lia.
Qed.

Lemma endswith_iff s t : endswith s t = true <-> exists p, s = p ++ t.
Proof.
  split.
  - unfold endswith.
    destruct (Nat.leb_spec (String.length t) (String.length s)) as [Hle|]; [|discriminate].
    intros E. apply String.eqb_eq in E.
    exists (substring 0 (String.length s - String.length t) s).
    pose proof (substring_split s (String.length s - String.length t)) as Hs.
    replace (String.length s - (String.length s - String.length t))%nat
      with (String.length t) in Hs by lia.
    rewrite E in Hs. apply Hs. lia.
  - intros [p ->]. apply endswith_append.
Qed.

(** X9.  The output name is left as it is exactly when it has the form
    [stem ++ ".mlpackage"]. *)
Theorem package_name_unchanged_iff out :
  package_name out = out <-> exists stem, out = stem ++ ".mlpackage".
Proof.
  rewrite <- endswith_iff. pose proof (package_name_cases out) as H.
  destruct (endswith out ".mlpackage"); split; auto; try discriminate.
  intros E. rewrite H in E. apply (f_equal String.length) in E.
  rewrite length_append in E. simpl in E. lia.
Qed.

Lemma append_inj_l a b s : a ++ s = b ++ s -> a = b.
Proof.
  revert b. induction a as [|c a IH]; intros [|d b] E; simpl in E.
  - reflexivity.
  - apply (f_equal String.length) in E. simpl in E. rewrite length_append in E. lia.
  - apply (f_equal String.length) in E. simpl in E. rewrite length_append in E. lia.
  - injection E as -> E. f_equal. now apply IH.
Qed.

(** X10.  Two output names are saved under the same package name only if
    they are equal or one is the other followed by ".mlpackage". *)
Theorem package_name_collisions a b :
  package_name a = package_name b ->
  a = b \/ a = b ++ ".mlpackage" \/ b = a ++ ".mlpackage".
Proof.
  pose proof (package_name_cases a) as Ha. pose proof (package_name_cases b) as Hb.
  destruct (endswith a ".mlpackage"), (endswith b ".mlpackage");
    rewrite Ha, Hb; intros E; auto.
  left. now apply append_inj_l in E.
Qed.

(** X11.  The package name is never empty: it has at least the 10
    characters of ".mlpackage", and at most 10 more than the given name. *)
Theorem package_name_length out :
  (10 <= String.length (package_name out))%nat /\
  (String.length out <= String.length (package_name out) <= String.length out + 10)%nat.
Proof.
  pose proof (package_name_endswith out) as He.
  apply endswith_iff in He as [p Hp].
  split; [rewrite Hp, length_append; simpl; lia|].
  pose proof (package_name_cases out) as H.
  destruct (endswith out ".mlpackage"); rewrite H; [lia|].
  rewrite length_append. simpl. lia.
Qed.


Lemma package_name_collisions_witness :
  package_name "Model" = package_name "Model.mlpackage" /\
  ("Model" = "Model.mlpackage" \/
   "Model" = "Model.mlpackage" ++ ".mlpackage" \/
   "Model.mlpackage" = "Model" ++ ".mlpackage").
Proof.
  split; [reflexivity|].
  apply (package_name_collisions "Model" "Model.mlpackage"). reflexivity.
Defined.

End PathMore.

(* ------------------------------------------------------------------ *)
(** ** More about the pipeline *)
(* ------------------------------------------------------------------ *)

Module PipelineMore.

Import Tensor Path Pipeline Demo More PipelineFacts.
Local Open Scope string_scope.

Ltac exec_prints :=
  cbv [prints flat_map app progress_before progress_after fallback_messages].

Section Facts.
Context {W Tokenizer Traced Program : Type} (L : Libs W Tokenizer Traced Program).


(** X13.  The entry point never raises.  It exits with 0 exactly when
    [convert] returns, printing nothing of its own then, and with 1 exactly
    when [convert] raises; the world is as [convert] left it. *)
Theorem main_exit_status args w :
  let rc := convert L (arg_model args) (arg_seq_len args) (arg_output args) w in
  world (main L args w) = world rc /\
  ((exists p, value rc = Ok p /\ value (main L args w) = Ok 0%Z /\
              log (main L args w) = log rc) \/
   (exists e, value rc = Raise e /\ value (main L args w) = Ok 1%Z)).
Proof.
  intros rc. rewrite main_run. fold rc.
  destruct rc as [l w1 [p | e]]; cbn; split; eauto.
Qed.

(** X15.  In every run, [mlmodel.save] is called only right after a
    conversion that returned and the three metadata assignments, with the
    normalised name; every call before them returned, a failed trace
    apart. *)
Theorem save_only_after_conversion name n out w q o :
  In (mlmodel_save q, o) (calls (log (convert L name n out w))) ->
  exists pre inputs post,
    calls (log (convert L name n out w))
    = (pre ++ [ (ct_convert inputs, Returned);
                (set_short_description description, Returned);
                (set_author converted_from, Returned);
                (set_license license_note, Returned);
                (mlmodel_save q, o) ] ++ post)%list /\
    q = package_name out /\
    Forall (fun co => snd co = Returned \/ is_jit_trace (fst co) = true) pre.
Proof.
  run_script; intros H; in_cases; try discriminate.
  all: match goal with
       | |- exists pre inputs post, ?l = _ /\ _ =>
           first
             [ exists (firstn 7 l); cbn [firstn]; eexists; eexists;
               split; [reflexivity | split; [reflexivity|]]
             | exists (firstn 8 l); cbn [firstn]; eexists; eexists;
               split; [reflexivity | split; [reflexivity|]] ]
       end.
  all: repeat (constructor; [first [left; reflexivity | right; reflexivity]|]);
    constructor.
Qed.

(** X16.  A run that succeeds prints the six numbered progress messages in
    order (with the two fallback messages after [3/6] when the trace
    raised), and the path it reports as saved is the path it returns. *)
Theorem success_messages name n out w p :
  value (convert L name n out w) = Ok p ->
  prints (log (convert L name n out w))
  = (progress_before name ++ progress_after out p)%list
  \/
  exists e wrapper ids mask,
    In (jit_trace wrapper ids mask, Raised e) (calls (log (convert L name n out w))) /\
    prints (log (convert L name n out w))
    = (progress_before name ++ fallback_messages e ++ progress_after out p)%list.
Proof.
  run_script; intros Hv; try discriminate Hv; injection Hv as <-; exec_prints.
  - left. reflexivity.
  - right. eexists _, _, _, _. split; [|reflexivity]. simpl. tauto.
Qed.


End Facts.


Lemma save_only_after_conversion_witness :
  In (mlmodel_save "out.mlpackage", Returned)
     (calls (log (convert (libs 384 false) "m" 4 "out" []))) /\
  "out.mlpackage" = package_name "out".
Proof.
  assert (H : In (mlmodel_save "out.mlpackage", Returned)
                 (calls (log (convert (libs 384 false) "m" 4 "out" [])))).
  { do 12 right. left. reflexivity. }
  split; [exact H|].
  destruct (save_only_after_conversion (libs 384 false) "m" 4 "out" []
              "out.mlpackage" Returned H) as (pre & inputs & post & _ & Hq & _).
  exact Hq.
Defined.

Lemma success_messages_witness :
  value (convert (libs 384 true) "m" 4 "out" []) = Ok "/work/out.mlpackage" /\
  (prints (log (convert (libs 384 true) "m" 4 "out" []))
   = (progress_before "m" ++ progress_after "out" "/work/out.mlpackage")%list
   \/
   exists e wrapper ids mask,
     In (jit_trace wrapper ids mask, Raised e)
        (calls (log (convert (libs 384 true) "m" 4 "out" []))) /\
     prints (log (convert (libs 384 true) "m" 4 "out" []))
     = (progress_before "m" ++ fallback_messages e
        ++ progress_after "out" "/work/out.mlpackage")%list).
Proof.
  split; [reflexivity|].
  apply (success_messages (libs 384 true) "m" 4 "out" [] "/work/out.mlpackage").
  reflexivity.
Defined.

End PipelineMore.

(* ------------------------------------------------------------------ *)
(** ** The shapes of the saved model *)
(* ------------------------------------------------------------------ *)

Module ArtifactFacts.

Import Tensor Path Pipeline Demo More PipelineFacts.
Local Open Scope string_scope.



Section Facts.
Context {W Tokenizer Traced Program : Type} (L : Libs W Tokenizer Traced Program).
Variable run_traced : Traced -> itensor -> itensor -> list vec.
Variable predict : Program -> itensor -> itensor -> list vec.


End Facts.



End ArtifactFacts.
